(** * The model export driver (machine-learning/export/immich_model_exporter/run.py)

    The script walks the module-level list [models] and, for each entry,
    prints a progress message, runs [python export.py <model> openclip]
    through [subprocess.check_call] inside a [try], and prints a failure
    message from the [except Exception] clause.

    The embedding is shallow: the script is a term of a small monad that
    records what it prints and which commands it launches, counts the
    launches, and either returns or raises a Python exception.  The external
    exporter is the environment: a function giving, for the n-th launch and
    its argument vector, what happened to the child process. *)

From Stdlib Require Import String Ascii List Arith Lia Bool.
Import ListNotations.
Local Open Scope string_scope.
Local Open Scope list_scope.

(** ** Python side: exceptions, effects, control structures *)

Module Py.

(** The exception classes that matter for [except Exception]:
    [CalledProcessError] (the child returned a non-zero status) and
    [OSError] (the child could not be started) derive from [Exception];
    [KeyboardInterrupt] derives from [BaseException] only. *)
Inductive exc_class : Type :=
| CalledProcessError
| OSError
| KeyboardInterrupt.

(** [isinstance(e, Exception)] on the class of [e]. *)
Definition is_Exception (c : exc_class) : bool :=
  match c with
  | CalledProcessError => true
  | OSError => true
  | KeyboardInterrupt => false
  end.

(** An exception value: its class and the text [str(e)] gives. *)
Record exc : Type := Exc { cls : exc_class; str : string }.

(** What the script does to the outside world, in order. *)
Inductive event : Type :=
| Stdout (text : string)          (* one call of print *)
| Invoke (argv : list string).    (* one call of subprocess.check_call *)

Inductive result (A : Type) : Type :=
| Ret (a : A)
| Raise (e : exc).
Arguments Ret {A} a.
Arguments Raise {A} e.

(** One finished piece of execution: the events it produced, the number of
    launches made so far when it ended, and how it ended. *)
Record run (A : Type) : Type :=
  Run { emitted : list event; spawned : nat; value : result A }.
Arguments Run {A} emitted spawned value.
Arguments emitted {A} r.
Arguments spawned {A} r.
Arguments value {A} r.

(** A computation starts from the number of launches made before it. *)
Definition M (A : Type) : Type := nat -> run A.

Definition ret {A : Type} (a : A) : M A :=
  fun n => Run [] n (Ret a).

Definition raise {A : Type} (e : exc) : M A :=
  fun n => Run [] n (Raise e).

(** Sequencing: an exception in the first part skips the second. *)
Definition bind {A B : Type} (c : M A) (k : A -> M B) : M B :=
  fun n =>
    let r1 := c n in
    match value r1 with
    | Ret a =>
        let r2 := k a (spawned r1) in
        Run (emitted r1 ++ emitted r2) (spawned r2) (value r2)
    | Raise e => Run (emitted r1) (spawned r1) (Raise e)
    end.

(** [print(text)]; writing to the console is taken to succeed. *)
Definition print (text : string) : M unit :=
  fun n => Run [Stdout text] n (Ret tt).

(** What the external exporter did on one launch.  [detail] is the text of
    the exception [subprocess.check_call] raises for it. *)
Inductive outcome : Type :=
| Succeeded
| ExitedAbnormally (detail : string)
| LaunchFailed (detail : string).

(** The environment: the outcome of launch number [n] with vector [argv]. *)
Definition exporter : Type := nat -> list string -> outcome.

(** [subprocess.check_call(argv)]: returns 0 when the child exits with
    status 0, raises [CalledProcessError] on any other status, and raises
    an [OSError] when the child cannot be started. *)
Definition check_call (env : exporter) (argv : list string) : M nat :=
  fun n =>
    match env n argv with
    | Succeeded => Run [Invoke argv] (S n) (Ret 0)
    | ExitedAbnormally d =>
        Run [Invoke argv] (S n) (Raise (Exc CalledProcessError d))
    | LaunchFailed d =>
        Run [Invoke argv] (S n) (Raise (Exc OSError d))
    end.

(** [try: body / except Exception as e: handler e].  An exception whose
    class is not an [Exception] passes through. *)
Definition try_except_Exception (body : M unit) (handler : exc -> M unit)
  : M unit :=
  fun n =>
    let r1 := body n in
    match value r1 with
    | Ret a => r1
    | Raise e =>
        if is_Exception (cls e) then
          let r2 := handler e (spawned r1) in
          Run (emitted r1 ++ emitted r2) (spawned r2) (value r2)
        else r1
    end.

(** [for x in xs: body x]; an exception leaving the body ends the loop. *)
Fixpoint for_in {A : Type} (xs : list A) (body : A -> M unit) : M unit :=
  match xs with
  | [] => ret tt
  | x :: xs' => bind (body x) (fun _ => for_in xs' body)
  end.

(** How a process ends: by exiting with a status, or killed by a signal. *)
Inductive termination : Type :=
| Exited (status : nat)
| Signaled (signal : nat).

(** How the interpreter ends (POSIX): it exits with status 0 when the script
    runs to its end; when a [KeyboardInterrupt] is left uncaught it restores
    the default handler and kills itself with SIGINT (signal 2); any other
    uncaught exception makes it exit with status 1. *)
Definition process_end {A : Type} (r : run A) : termination :=
  match value r with
  | Ret _ => Exited 0
  | Raise e =>
      match cls e with
      | KeyboardInterrupt => Signaled 2
      | _ => Exited 1
      end
  end.

(** The status a shell reports for the interpreter: the exit status, or 128
    plus the signal number for a process killed by a signal. *)
Definition exit_status {A : Type} (r : run A) : nat :=
  match process_end r with
  | Exited status => status
  | Signaled signal => 128 + signal
  end.

End Py.

Import Py.

Declare Scope py_scope.
Delimit Scope py_scope with py.
Notation "x <- c ;; k" := (bind c (fun x => k))
  (at level 61, c at next level, right associativity) : py_scope.
Notation "c ;; k" := (bind c (fun _ => k))
  (at level 61, right associativity) : py_scope.
Local Open Scope py_scope.

(** ** The script *)

(** The active entries of [models] (lines 27-31); every other entry of the
    literal is commented out. *)
Definition models : list string :=
  [ "ViT-SO400M-14-SigLIP2__webli";
    "ViT-SO400M-14-SigLIP2-378__webli";
    "ViT-SO400M-16-SigLIP2-256__webli";
    "ViT-SO400M-16-SigLIP2-384__webli";
    "ViT-SO400M-16-SigLIP2-512__webli" ].

(** f"Exporting model {model}" *)
Definition progress_line (model : string) : string :=
  "Exporting model " ++ model.

(** f"Failed to export model {model}: {e}" with [detail] for [str(e)]. *)
Definition failure_line (model detail : string) : string :=
  "Failed to export model " ++ model ++ ": " ++ detail.

(** ["python", "export.py", model, "openclip"] *)
Definition export_argv (model : string) : list string :=
  ["python"; "export.py"; model; "openclip"].

(** The body of the loop, lines 67-71. *)
Definition export_model (env : exporter) (model : string) : M unit :=
  try_except_Exception
    (print (progress_line model) ;;
     _ <- check_call env (export_argv model) ;;
     ret tt)
    (fun e => print (failure_line model (str e))).

(** The loop of line 66 over an arbitrary list. *)
Definition main_loop (env : exporter) (ms : list string) : M unit :=
  for_in ms (export_model env).

(** The script run as [__main__]: the loop over [models], no launch made
    before it. *)
Definition main (env : exporter) : run unit :=
  main_loop env models 0.

(** ** Observations on a run *)

(** The argument vectors launched, in order. *)
Fixpoint invocations (t : list event) : list (list string) :=
  match t with
  | [] => []
  | Invoke argv :: t' => argv :: invocations t'
  | Stdout _ :: t' => invocations t'
  end.

(** The texts printed, in order. *)
Fixpoint console (t : list event) : list string :=
  match t with
  | [] => []
  | Stdout s :: t' => s :: console t'
  | Invoke _ :: t' => console t'
  end.

(** Whether [s] begins with [p]. *)
Fixpoint startswith (p s : string) : bool :=
  match p with
  | EmptyString => true
  | String a p' =>
      match s with
      | EmptyString => false
      | String b s' => Ascii.eqb a b && startswith p' s'
      end
  end.

Definition is_progress_line (s : string) : bool :=
  startswith "Exporting model " s.

Definition is_failure_line (s : string) : bool :=
  startswith "Failed to export model " s.

Definition progress_lines (t : list event) : list string :=
  filter is_progress_line (console t).

Definition failure_lines (t : list event) : list string :=
  filter is_failure_line (console t).

(** The failure detail of an outcome, whatever its kind. *)
Definition failure_detail (o : outcome) : option string :=
  match o with
  | Succeeded => None
  | ExitedAbnormally d => Some d
  | LaunchFailed d => Some d
  end.

Definition failed (o : outcome) : bool :=
  match failure_detail o with
  | Some _ => true
  | None => false
  end.

(** ** The run as the specification words it *)

(** The command that is launched: the export tool is the interpreter with
    the export script; the mode string is fixed. *)
Definition export_tool : list string := ["python"; "export.py"].
Definition mode_string : string := "openclip".

(** For the entry processed as launch number [i]: one progress line, then the
    invocation, then one failure line when, and only when, it failed. *)
Definition spec_entry (env : exporter) (i : nat) (m : string) : list event :=
  [Stdout (progress_line m); Invoke (export_argv m)] ++
  match failure_detail (env i (export_argv m)) with
  | Some d => [Stdout (failure_line m d)]
  | None => []
  end.

(** The entries one after the other, in list order. *)
Fixpoint spec_trace (env : exporter) (i : nat) (ms : list string)
  : list event :=
  match ms with
  | [] => []
  | m :: ms' => spec_entry env i m ++ spec_trace env (S i) ms'
  end.

(** How many entries of the list failed. *)
Fixpoint failed_count (env : exporter) (i : nat) (ms : list string) : nat :=
  match ms with
  | [] => 0
  | m :: ms' =>
      (if failed (env i (export_argv m)) then 1 else 0)
      + failed_count env (S i) ms'
  end.

(** The model identifier carried by an argument vector. *)
Definition model_of (argv : list string) : string := nth 2 argv "".

(** Whether every invocation in the trace comes directly after the progress
    line of the identifier it carries; [prev] is the text printed just
    before the trace, if the event just before it was a print. *)
Fixpoint invocations_announced (prev : option string) (t : list event)
  : bool :=
  match t with
  | [] => true
  | Stdout s :: t' => invocations_announced (Some s) t'
  | Invoke argv :: t' =>
      match prev with
      | Some s => String.eqb s (progress_line (model_of argv))
      | None => false
      end && invocations_announced None t'
  end.

(** A stub exporter for scenarios: outcome [o] for the model [bad], success
    for every other model. *)
Definition stub_failing_for (bad : string) (o : outcome) : exporter :=
  fun _ argv => if String.eqb (model_of argv) bad then o else Succeeded.

(** A stub exporter that fails, with the given outcome, on the launches whose
    number satisfies [p]. *)
Definition stub_failing_at (p : nat -> bool) (o : outcome) : exporter :=
  fun n _ => if p n then o else Succeeded.

(** ** The loop with the launch left open *)

(** The body of the loop (lines 67-71) with the call of line 69 left as a
    parameter: [call argv] stands for [subprocess.check_call(argv)] and may
    be any computation, so that it may raise any exception. *)
Definition export_model_with (call : list string -> M nat) (model : string)
  : M unit :=
  try_except_Exception
    (print (progress_line model) ;;
     _ <- call (export_argv model) ;;
     ret tt)
    (fun e => print (failure_line model (str e))).

(** The loop of line 66 around that body. *)
Definition main_loop_with (call : list string -> M nat) (ms : list string)
  : M unit :=
  for_in ms (export_model_with call).

(** A launch during which the user may press Ctrl-C: [None] stands for the
    interrupt arriving while the child runs, and [subprocess.check_call]
    then raises [KeyboardInterrupt], whose text is empty. *)
Definition check_call_interruptible
           (env : nat -> list string -> option outcome) (argv : list string)
  : M nat :=
  fun n =>
    match env n argv with
    | Some o => check_call (fun _ _ => o) argv n
    | None => Run [Invoke argv] (S n) (Raise (Exc KeyboardInterrupt ""))
    end.

(** The exporter seen through an interruptible environment, where it was
    not interrupted. *)
Definition settled (env : nat -> list string -> option outcome) : exporter :=
  fun n argv =>
    match env n argv with
    | Some o => o
    | None => Succeeded
    end.

(** A launch for scenarios: the interpreter is missing, so that every launch
    raises an [OSError]. *)
Definition launch_without_python (argv : list string) : M nat :=
  fun n => Run [Invoke argv] (S n) (Raise (Exc OSError "no python")).

(** The console of a run, text by text: for the entry processed as launch
    number [i], the words "Exporting model" and the identifier; then, when
    its invocation failed, the words "Failed to export model", the
    identifier, a colon and the failure detail. *)
Fixpoint console_text (env : exporter) (i : nat) (ms : list string)
  : list string :=
  match ms with
  | [] => []
  | m :: ms' =>
      ("Exporting model " ++ m)%string
        :: match failure_detail (env i (export_argv m)) with
           | Some d => [("Failed to export model " ++ m ++ ": " ++ d)%string]
           | None => []
           end
        ++ console_text env (S i) ms'
  end.

(** * Properties *)

(** ** Small runs, evaluated *)

Example run_two_ok :
  main_loop (fun _ _ => Succeeded) ["m1"; "m2"] 0
  = Run [Stdout "Exporting model m1";
         Invoke ["python"; "export.py"; "m1"; "openclip"];
         Stdout "Exporting model m2";
         Invoke ["python"; "export.py"; "m2"; "openclip"]] 2 (Ret tt).
Proof. reflexivity. Qed.

Example run_first_fails :
  main_loop (stub_failing_at (Nat.eqb 0) (LaunchFailed "[Errno 2]"))
            ["m1"; "m2"] 0
  = Run [Stdout "Exporting model m1";
         Invoke ["python"; "export.py"; "m1"; "openclip"];
         Stdout "Failed to export model m1: [Errno 2]";
         Stdout "Exporting model m2";
         Invoke ["python"; "export.py"; "m2"; "openclip"]] 2 (Ret tt).
Proof. reflexivity. Qed.

Example main_all_ok_counts :
  spawned (main (fun _ _ => Succeeded)) = 5
  /\ length (console (emitted (main (fun _ _ => Succeeded)))) = 5.
Proof. split; reflexivity. Qed.

(** ** The Python layer *)

(** [except Exception] lets a [KeyboardInterrupt] through. *)
Lemma try_except_passes_BaseException (s : string) (h : exc -> M unit) (n : nat) :
  try_except_Exception (raise (Exc KeyboardInterrupt s)) h n
  = Run [] n (Raise (Exc KeyboardInterrupt s)).
Proof. reflexivity. Qed.

(** An exception leaving the body of a [for] ends the loop at once. *)
Lemma for_in_stops_on_raise {A : Type} (x : A) (xs : list A) (e : exc)
      (body : A -> M unit) (n : nat) :
  value (body x n) = Raise e ->
  for_in (x :: xs) body n = Run (emitted (body x n)) (spawned (body x n)) (Raise e).
Proof.
  intros Hv. simpl. unfold bind. rewrite Hv. reflexivity.
Qed.

(** Whatever the exporter does, [check_call] raises only exceptions that are
    instances of [Exception]. *)
Lemma check_call_raises_Exception (env : exporter) (argv : list string)
      (n : nat) (e : exc) :
  value (check_call env argv n) = Raise e -> is_Exception (cls e) = true.
Proof.
  unfold check_call. destruct (env n argv); simpl; intros H;
    try discriminate; injection H as <-; reflexivity.
Qed.

(** ** Observations and concatenation *)

Lemma invocations_app (t1 t2 : list event) :
  invocations (t1 ++ t2) = invocations t1 ++ invocations t2.
Proof.
  induction t1 as [| [s | a] t1 IH]; simpl; [reflexivity | assumption |].
  now rewrite IH.
Qed.

Lemma console_app (t1 t2 : list event) :
  console (t1 ++ t2) = console t1 ++ console t2.
Proof.
  induction t1 as [| [s | a] t1 IH]; simpl; [reflexivity | | assumption].
  now rewrite IH.
Qed.

Lemma progress_lines_app (t1 t2 : list event) :
  progress_lines (t1 ++ t2) = progress_lines t1 ++ progress_lines t2.
Proof. unfold progress_lines. now rewrite console_app, filter_app. Qed.

Lemma failure_lines_app (t1 t2 : list event) :
  failure_lines (t1 ++ t2) = failure_lines t1 ++ failure_lines t2.
Proof. unfold failure_lines. now rewrite console_app, filter_app. Qed.

Lemma progress_line_is_progress (m : string) :
  is_progress_line (progress_line m) = true.
Proof. reflexivity. Qed.

Lemma progress_line_not_failure (m : string) :
  is_failure_line (progress_line m) = false.
Proof. reflexivity. Qed.

Lemma failure_line_is_failure (m d : string) :
  is_failure_line (failure_line m d) = true.
Proof. reflexivity. Qed.

Lemma failure_line_not_progress (m d : string) :
  is_progress_line (failure_line m d) = false.
Proof. reflexivity. Qed.

(** ** One iteration, and the whole loop *)

Section Driver.

Variable env : exporter.

(** One pass through the loop body: it always returns, after exactly one
    launch, having produced the events of [spec_entry]. *)
Lemma export_model_run (m : string) (n : nat) :
  export_model env m n = Run (spec_entry env n m) (S n) (Ret tt).
Proof.
  unfold export_model, try_except_Exception, bind, print, check_call,
    spec_entry, ret.
  simpl. destruct (env n (export_argv m)); reflexivity.
Qed.

(** The loop: it always returns, after one launch per entry, having
    produced the events of [spec_trace]. *)
Lemma main_loop_run (ms : list string) :
  forall n, main_loop env ms n
            = Run (spec_trace env n ms) (n + length ms) (Ret tt).
Proof.
  unfold main_loop.
  induction ms as [| m ms IH]; intros n; simpl.
  - unfold ret. now rewrite Nat.add_0_r.
  - unfold bind. rewrite export_model_run. simpl.
    rewrite IH. simpl. now rewrite Nat.add_succ_r.
Qed.

Lemma spec_trace_app (l1 l2 : list string) :
  forall n, spec_trace env n (l1 ++ l2)
            = spec_trace env n l1 ++ spec_trace env (n + length l1) l2.
Proof.
  induction l1 as [| m l1 IH]; intros n; simpl.
  - now rewrite Nat.add_0_r.
  - rewrite IH, <- app_assoc. now rewrite Nat.add_succ_r.
Qed.

Lemma invocations_spec_entry (i : nat) (m : string) :
  invocations (spec_entry env i m) = [export_argv m].
Proof.
  unfold spec_entry. simpl.
  destruct (failure_detail (env i (export_argv m))); reflexivity.
Qed.

Lemma invocations_spec_trace (ms : list string) :
  forall n, invocations (spec_trace env n ms) = map export_argv ms.
Proof.
  induction ms as [| m ms IH]; intros n;
    cbn [spec_trace map length failed_count]; [reflexivity |].
  now rewrite invocations_app, invocations_spec_entry, IH.
Qed.

Lemma progress_lines_spec_entry (i : nat) (m : string) :
  progress_lines (spec_entry env i m) = [progress_line m].
Proof.
  unfold spec_entry, progress_lines. simpl console.
  destruct (failure_detail (env i (export_argv m))) as [d |]; simpl console;
    cbn [filter]; rewrite progress_line_is_progress;
    [rewrite failure_line_not_progress |]; reflexivity.
Qed.

Lemma failure_lines_spec_entry (i : nat) (m : string) :
  failure_lines (spec_entry env i m)
  = match failure_detail (env i (export_argv m)) with
    | Some d => [failure_line m d]
    | None => []
    end.
Proof.
  unfold spec_entry, failure_lines. simpl console.
  destruct (failure_detail (env i (export_argv m))) as [d |]; simpl console;
    cbn [filter]; rewrite progress_line_not_failure;
    [rewrite failure_line_is_failure |]; reflexivity.
Qed.

Lemma console_spec_entry_length (i : nat) (m : string) :
  length (console (spec_entry env i m))
  = 1 + (if failed (env i (export_argv m)) then 1 else 0).
Proof.
  unfold spec_entry, failed. simpl.
  destruct (failure_detail (env i (export_argv m))); reflexivity.
Qed.

Lemma progress_lines_spec_trace (ms : list string) :
  forall n, progress_lines (spec_trace env n ms) = map progress_line ms.
Proof.
  induction ms as [| m ms IH]; intros n;
    cbn [spec_trace map length failed_count]; [reflexivity |].
  now rewrite progress_lines_app, progress_lines_spec_entry, IH.
Qed.

Lemma failure_lines_spec_trace_length (ms : list string) :
  forall n, length (failure_lines (spec_trace env n ms))
            = failed_count env n ms.
Proof.
  induction ms as [| m ms IH]; intros n;
    cbn [spec_trace map length failed_count]; [reflexivity |].
  rewrite failure_lines_app, length_app, failure_lines_spec_entry, IH.
  unfold failed. destruct (failure_detail (env n (export_argv m)));
    reflexivity.
Qed.

Lemma console_spec_trace_length (ms : list string) :
  forall n, length (console (spec_trace env n ms))
            = length ms + failed_count env n ms.
Proof.
  induction ms as [| m ms IH]; intros n;
    cbn [spec_trace map length failed_count]; [reflexivity |].
  rewrite console_app, length_app, console_spec_entry_length, IH. lia.
Qed.

Lemma invocations_announced_spec_trace (ms : list string) :
  forall n prev, invocations_announced prev (spec_trace env n ms) = true.
Proof.
  induction ms as [| m ms IH]; intros n prev; cbn [spec_trace];
    [reflexivity |].
  unfold spec_entry. cbn [app invocations_announced].
  change (model_of (export_argv m)) with m. rewrite String.eqb_refl.
  destruct (failure_detail (env n (export_argv m)));
    cbn [app invocations_announced andb]; apply IH.
Qed.

End Driver.

(** Two exporters whose outcomes carry the same failure detail (or both
    succeed) at every launch the loop makes give the same run. *)
Lemma main_loop_ext (env1 env2 : exporter) (ms : list string) :
  forall n,
    (forall i m, nth_error ms i = Some m ->
                 failure_detail (env1 (n + i) (export_argv m))
                 = failure_detail (env2 (n + i) (export_argv m))) ->
    main_loop env1 ms n = main_loop env2 ms n.
Proof.
  intros n H. rewrite !main_loop_run. f_equal.
  revert n H. induction ms as [| m ms IH]; intros n H; cbn [spec_trace];
    [reflexivity |].
  f_equal.
  - unfold spec_entry. specialize (H 0 m eq_refl).
    rewrite Nat.add_0_r in H. now rewrite H.
  - apply IH. intros i m' Hi. specialize (H (S i) m' Hi).
    now rewrite Nat.add_succ_r in H.
Qed.

Lemma invoke_in_invocations (argv : list string) (t : list event) :
  In (Invoke argv) t -> In argv (invocations t).
Proof.
  induction t as [| [s | a] t IH]; simpl; intros H.
  - contradiction.
  - destruct H as [H | H]; [discriminate | auto].
  - destruct H as [H | H]; [injection H as ->; now left | right; auto].
Qed.

Lemma model_of_export_argv (ms : list string) :
  map model_of (map export_argv ms) = ms.
Proof.
  induction ms as [| m ms IH]; simpl; [reflexivity |]. now rewrite IH.
Qed.

(** The list around two neighbouring entries. *)
Lemma nth_error_split_pair (ms : list string) (i : nat) (m m' : string) :
  nth_error ms i = Some m ->
  nth_error ms (S i) = Some m' ->
  exists l1 l2, ms = l1 ++ m :: m' :: l2 /\ length l1 = i.
Proof.
  intros H1 H2.
  destruct (nth_error_split ms i H1) as (l1 & l2 & -> & Hlen).
  rewrite nth_error_app2 in H2 by lia.
  replace (S i - length l1) with 1 in H2 by lia.
  destruct l2 as [| x l2]; simpl in H2; [discriminate |].
  injection H2 as ->. now exists l1, l2.
Qed.

Lemma console_spec_trace (env : exporter) (ms : list string) :
  forall n, console (spec_trace env n ms) = console_text env n ms.
Proof.
  induction ms as [| m ms IH]; intros n; cbn [spec_trace console_text];
    [reflexivity |].
  rewrite console_app, IH. unfold spec_entry.
  destruct (failure_detail (env n (export_argv m))); reflexivity.
Qed.

(** ** The claims *)

(** C1: for every model list of N identifiers and every behaviour of the
    exporter, the run makes exactly N invocation attempts, one per
    identifier, in list order: the launched vectors are the list mapped
    through [export_argv], and the identifiers they carry are the list. *)
Theorem one_invocation_per_identifier_in_order
        (env : exporter) (ms : list string) :
  invocations (emitted (main_loop env ms 0)) = map export_argv ms
  /\ length (invocations (emitted (main_loop env ms 0))) = length ms
  /\ map model_of (invocations (emitted (main_loop env ms 0))) = ms
  /\ spawned (main_loop env ms 0) = length ms.
Proof.
  rewrite main_loop_run. simpl. rewrite invocations_spec_trace.
  repeat split.
  - apply length_map.
  - apply model_of_export_argv.
Qed.

(** C2: if the i-th invocation fails (abnormal exit or failed launch) and
    the list has an entry after it, the (i+1)-th invocation is still made,
    right after the failure message of the i-th, and the run ends normally. *)
Theorem failure_does_not_stop_the_loop
        (env : exporter) (ms : list string) (i : nat) (m m' : string) :
  nth_error ms i = Some m ->
  failed (env i (export_argv m)) = true ->
  nth_error ms (S i) = Some m' ->
  nth_error (invocations (emitted (main_loop env ms 0))) (S i)
  = Some (export_argv m')
  /\ value (main_loop env ms 0) = Ret tt
  /\ exists pre d post,
      failure_detail (env i (export_argv m)) = Some d
      /\ length (invocations pre) = i
      /\ emitted (main_loop env ms 0)
         = pre ++ [Stdout (progress_line m); Invoke (export_argv m);
                   Stdout (failure_line m d);
                   Stdout (progress_line m'); Invoke (export_argv m')]
               ++ post.
Proof.
  intros Hi Hfail Hnext. rewrite main_loop_run. cbn [emitted value].
  split; [| split; [reflexivity |]].
  - rewrite invocations_spec_trace. now apply map_nth_error.
  - destruct (nth_error_split_pair ms i m m' Hi Hnext) as (l1 & l2 & -> & Hlen).
    unfold failed in Hfail.
    destruct (failure_detail (env i (export_argv m))) as [d |] eqn:Hd;
      [| discriminate].
    exists (spec_trace env 0 l1), d.
    exists (match failure_detail (env (S i) (export_argv m')) with
            | Some d' => [Stdout (failure_line m' d')]
            | None => []
            end ++ spec_trace env (S (S i)) l2).
    split; [reflexivity |]. split.
    + now rewrite invocations_spec_trace, length_map.
    + rewrite spec_trace_app. simpl. rewrite Hlen.
      unfold spec_entry. rewrite Hd. simpl. reflexivity.
Qed.

(** C3: the events of the i-th pass through the loop sit in the run between
    those of the entries before and after it; among them there is exactly
    one failure message, the text "Failed to export model " followed by the
    i-th identifier, ": " and the failure detail, when the i-th invocation
    failed, and none when it succeeded. *)
Theorem one_failure_message_per_failed_invocation
        (env : exporter) (ms : list string) (i : nat) (m : string) :
  nth_error ms i = Some m ->
  emitted (main_loop env ms 0)
  = emitted (main_loop env (firstn i ms) 0)
    ++ emitted (export_model env m i)
    ++ emitted (main_loop env (skipn (S i) ms) (S i))
  /\ failure_lines (emitted (export_model env m i))
     = match failure_detail (env i (export_argv m)) with
       | Some d => [("Failed to export model " ++ m ++ ": " ++ d)%string]
       | None => []
       end.
Proof.
  intros Hi. rewrite !main_loop_run, export_model_run. cbn [emitted].
  split; [| exact (failure_lines_spec_entry env i m)].
  destruct (nth_error_split ms i Hi) as (l1 & l2 & -> & Hlen). subst i.
  rewrite firstn_app, skipn_app, Nat.sub_diag, firstn_all.
  rewrite (skipn_all2 l1) by lia.
  replace (S (length l1) - length l1) with 1 by lia.
  cbn [firstn skipn app]. rewrite app_nil_r.
  rewrite spec_trace_app. reflexivity.
Qed.

(** C4: every vector the run launches is the export tool followed by one
    identifier of the list, unchanged, and the mode string, which is
    "openclip" for every entry. *)
Theorem invocation_argument_shape
        (env : exporter) (ms : list string) (argv : list string) :
  In (Invoke argv) (emitted (main_loop env ms 0)) ->
  exists m,
    In m ms
    /\ argv = export_tool ++ [m; mode_string]
    /\ argv = ["python"; "export.py"; m; "openclip"]
    /\ model_of argv = m.
Proof.
  intros H. apply invoke_in_invocations in H.
  rewrite main_loop_run in H. simpl in H.
  rewrite invocations_spec_trace in H.
  apply in_map_iff in H. destruct H as (m & <- & Hm).
  exists m. repeat split; assumption.
Qed.

(** C5: on the list ["A"; "B"; "C"], with an exporter that succeeds for "A"
    and "C" and fails for "B" with detail [d], the three invocations are
    attempted in the order A, B, C and the console shows exactly
    progress A, progress B, failure B with [d], progress C. *)
Theorem scenario_only_B_fails (env : exporter) (d : string) :
  env 0 (export_argv "A") = Succeeded ->
  failure_detail (env 1 (export_argv "B")) = Some d ->
  env 2 (export_argv "C") = Succeeded ->
  invocations (emitted (main_loop env ["A"; "B"; "C"] 0))
  = [export_argv "A"; export_argv "B"; export_argv "C"]
  /\ console (emitted (main_loop env ["A"; "B"; "C"] 0))
     = [progress_line "A"; progress_line "B"; failure_line "B" d;
        progress_line "C"]
  /\ failure_lines (emitted (main_loop env ["A"; "B"; "C"] 0))
     = [failure_line "B" d]
  /\ emitted (main_loop env ["A"; "B"; "C"] 0)
     = [Stdout "Exporting model A"; Invoke (export_argv "A");
        Stdout "Exporting model B"; Invoke (export_argv "B");
        Stdout (failure_line "B" d);
        Stdout "Exporting model C"; Invoke (export_argv "C")].
Proof.
  intros HA HB HC. rewrite main_loop_run.
  cbn [emitted spec_trace]. unfold spec_entry. rewrite HA, HB, HC.
  repeat split.
Qed.

(** C6: the events of a run are, entry by entry and in list order, one
    progress line, then the invocation, then one failure line when the
    invocation failed, and nothing else: the run produces exactly the trace
    the specification describes, every invocation comes directly after the
    progress line of its identifier, and the console holds one progress line
    per entry and as many further lines as there are failed entries.  The
    progress line of an entry is the text "Exporting model " followed by its
    identifier, and the failure line is "Failed to export model " followed
    by the identifier, ": " and the failure detail. *)
Theorem output_is_progress_and_failure_lines
        (env : exporter) (ms : list string) :
  emitted (main_loop env ms 0) = spec_trace env 0 ms
  /\ invocations_announced None (emitted (main_loop env ms 0)) = true
  /\ progress_lines (emitted (main_loop env ms 0)) = map progress_line ms
  /\ length (failure_lines (emitted (main_loop env ms 0)))
     = failed_count env 0 ms
  /\ length (console (emitted (main_loop env ms 0)))
     = length ms + failed_count env 0 ms
  /\ console (emitted (main_loop env ms 0)) = console_text env 0 ms
  /\ progress_lines (emitted (main_loop env ms 0))
     = map (fun m => ("Exporting model " ++ m)%string) ms.
Proof.
  rewrite main_loop_run. cbn [emitted].
  split; [reflexivity |].
  split; [apply invocations_announced_spec_trace |].
  split; [apply progress_lines_spec_trace |].
  split; [apply failure_lines_spec_trace_length |].
  split; [apply console_spec_trace_length |].
  split; [apply console_spec_trace |].
  exact (progress_lines_spec_trace env ms 0).
Qed.

(** C7: an abnormal exit and a failed launch raise exceptions of different
    classes, both instances of [Exception]; the one handler catches both,
    and with the same detail the pass through the loop body is the same in
    every respect: the progress line, the invocation, and the failure line,
    which is the text "Failed to export model " followed by the identifier,
    ": " and the detail. *)
Theorem failure_kinds_are_reported_alike
        (env1 env2 : exporter) (m : string) (n : nat) (d : string) :
  env1 n (export_argv m) = ExitedAbnormally d ->
  env2 n (export_argv m) = LaunchFailed d ->
  value (check_call env1 (export_argv m) n) = Raise (Exc CalledProcessError d)
  /\ value (check_call env2 (export_argv m) n) = Raise (Exc OSError d)
  /\ export_model env1 m n = export_model env2 m n
  /\ export_model env1 m n
     = Run [Stdout ("Exporting model " ++ m)%string;
            Invoke ["python"; "export.py"; m; "openclip"];
            Stdout ("Failed to export model " ++ m ++ ": " ++ d)%string]
           (S n) (Ret tt)
  /\ export_model env2 m n
     = Run [Stdout ("Exporting model " ++ m)%string;
            Invoke ["python"; "export.py"; m; "openclip"];
            Stdout ("Failed to export model " ++ m ++ ": " ++ d)%string]
           (S n) (Ret tt).
Proof.
  intros H1 H2. rewrite !export_model_run. unfold check_call, spec_entry.
  rewrite H1, H2. repeat split.
Qed.

(** C8: whatever outcome each invocation has, the loop runs to the end of
    the list and the driver ends normally, with exit status 0; no exception
    of an invocation leaves the loop. *)
Theorem driver_completes_normally (env : exporter) (ms : list string) :
  value (main_loop env ms 0) = Ret tt
  /\ exit_status (main_loop env ms 0) = 0
  /\ spawned (main_loop env ms 0) = length ms
  /\ exit_status (main env) = 0.
Proof.
  unfold main, exit_status, process_end. rewrite !main_loop_run.
  repeat split.
Qed.

(** C9: on the empty list the run makes no invocation and prints nothing. *)
Theorem empty_list_is_silent (env : exporter) :
  main_loop env [] 0 = Run [] 0 (Ret tt)
  /\ invocations (emitted (main_loop env [] 0)) = []
  /\ console (emitted (main_loop env [] 0)) = [].
Proof. repeat split. Qed.

(** C10: two runs over the same list, in which every invocation has the
    same outcome (success, or failure with the same detail), are the same
    run: the same invocations and the same console lines, in the same
    order. *)
Theorem runs_are_determined_by_outcomes
        (env1 env2 : exporter) (ms : list string) :
  (forall i m, nth_error ms i = Some m ->
               failure_detail (env1 i (export_argv m))
               = failure_detail (env2 i (export_argv m))) ->
  main_loop env1 ms 0 = main_loop env2 ms 0
  /\ invocations (emitted (main_loop env1 ms 0))
     = invocations (emitted (main_loop env2 ms 0))
  /\ console (emitted (main_loop env1 ms 0))
     = console (emitted (main_loop env2 ms 0)).
Proof.
  intros H.
  assert (E : main_loop env1 ms 0 = main_loop env2 ms 0)
    by (apply main_loop_ext; exact H).
  rewrite E. repeat split.
Qed.

(** ** The claims at concrete inputs *)

Lemma failure_does_not_stop_the_loop_witness :
  nth_error ["m1"; "m2"] 0 = Some "m1"
  /\ failed (stub_failing_at (Nat.eqb 0) (ExitedAbnormally "exit status 1")
               0 (export_argv "m1")) = true
  /\ nth_error ["m1"; "m2"] 1 = Some "m2"
  /\ nth_error
       (invocations
          (emitted
             (main_loop
                (stub_failing_at (Nat.eqb 0) (ExitedAbnormally "exit status 1"))
                ["m1"; "m2"] 0))) 1
     = Some (export_argv "m2").
Proof.
  refine (conj eq_refl (conj eq_refl (conj eq_refl _))).
  exact (proj1 (failure_does_not_stop_the_loop
                  (stub_failing_at (Nat.eqb 0)
                                   (ExitedAbnormally "exit status 1"))
                  ["m1"; "m2"] 0 "m1" "m2" eq_refl eq_refl eq_refl)).
Defined.

Lemma one_failure_message_per_failed_invocation_witness :
  nth_error ["m1"; "m2"; "m3"] 1 = Some "m2"
  /\ failure_lines
       (emitted (export_model
                   (stub_failing_at (Nat.eqb 1) (LaunchFailed "[Errno 2]"))
                   "m2" 1))
     = ["Failed to export model m2: [Errno 2]"].
Proof.
  refine (conj eq_refl _).
  exact (proj2 (one_failure_message_per_failed_invocation
                  (stub_failing_at (Nat.eqb 1) (LaunchFailed "[Errno 2]"))
                  ["m1"; "m2"; "m3"] 1 "m2" eq_refl)).
Defined.

Lemma invocation_argument_shape_witness :
  In (Invoke (export_argv "m1"))
     (emitted (main_loop (fun _ _ => Succeeded) ["m1"] 0))
  /\ exists m,
      In m ["m1"]
      /\ export_argv "m1" = export_tool ++ [m; mode_string]
      /\ export_argv "m1" = ["python"; "export.py"; m; "openclip"]
      /\ model_of (export_argv "m1") = m.
Proof.
  refine (conj (or_intror (or_introl eq_refl)) _).
  exact (invocation_argument_shape (fun _ _ => Succeeded) ["m1"]
           (export_argv "m1") (or_intror (or_introl eq_refl))).
Defined.

Lemma scenario_only_B_fails_witness :
  stub_failing_for "B" (ExitedAbnormally "exit status 1") 0 (export_argv "A")
  = Succeeded
  /\ failure_detail
       (stub_failing_for "B" (ExitedAbnormally "exit status 1") 1
                         (export_argv "B"))
     = Some "exit status 1"
  /\ stub_failing_for "B" (ExitedAbnormally "exit status 1") 2
                      (export_argv "C")
     = Succeeded
  /\ console
       (emitted
          (main_loop (stub_failing_for "B" (ExitedAbnormally "exit status 1"))
                     ["A"; "B"; "C"] 0))
     = ["Exporting model A"; "Exporting model B";
        "Failed to export model B: exit status 1"; "Exporting model C"].
Proof.
  refine (conj eq_refl (conj eq_refl (conj eq_refl _))).
  exact (proj1 (proj2 (scenario_only_B_fails
                         (stub_failing_for "B"
                                           (ExitedAbnormally "exit status 1"))
                         "exit status 1" eq_refl eq_refl eq_refl))).
Defined.

Lemma failure_kinds_are_reported_alike_witness :
  (fun (_ : nat) (_ : list string) => ExitedAbnormally "no such model") 0
    (export_argv "m1") = ExitedAbnormally "no such model"
  /\ (fun (_ : nat) (_ : list string) => LaunchFailed "no such model") 0
       (export_argv "m1") = LaunchFailed "no such model"
  /\ export_model (fun _ _ => ExitedAbnormally "no such model") "m1" 0
     = export_model (fun _ _ => LaunchFailed "no such model") "m1" 0
  /\ export_model (fun _ _ => ExitedAbnormally "no such model") "m1" 0
     = Run [Stdout "Exporting model m1";
            Invoke ["python"; "export.py"; "m1"; "openclip"];
            Stdout "Failed to export model m1: no such model"] 1 (Ret tt)
  /\ export_model (fun _ _ => LaunchFailed "no such model") "m1" 0
     = Run [Stdout "Exporting model m1";
            Invoke ["python"; "export.py"; "m1"; "openclip"];
            Stdout "Failed to export model m1: no such model"] 1 (Ret tt).
Proof.
  refine (conj eq_refl (conj eq_refl _)).
  exact (proj2 (proj2 (failure_kinds_are_reported_alike
                         (fun _ _ => ExitedAbnormally "no such model")
                         (fun _ _ => LaunchFailed "no such model")
                         "m1" 0 "no such model" eq_refl eq_refl))).
Defined.

Lemma output_is_progress_and_failure_lines_witness :
  console
    (emitted
       (main_loop (stub_failing_at (Nat.eqb 0) (ExitedAbnormally "boom"))
                  ["m1"; "m2"] 0))
  = ["Exporting model m1"; "Failed to export model m1: boom";
     "Exporting model m2"]
  /\ progress_lines
       (emitted
          (main_loop (stub_failing_at (Nat.eqb 0) (ExitedAbnormally "boom"))
                     ["m1"; "m2"] 0))
     = ["Exporting model m1"; "Exporting model m2"].
Proof.
  exact (proj2 (proj2 (proj2 (proj2 (proj2
           (output_is_progress_and_failure_lines
              (stub_failing_at (Nat.eqb 0) (ExitedAbnormally "boom"))
              ["m1"; "m2"])))))).
Defined.

(** Two exporters that differ as functions (one decides by launch number and
    exits abnormally, the other decides by identifier and fails to launch)
    but give the same detail at the launches the loop makes. *)
Lemma runs_are_determined_by_outcomes_witness :
  (forall i m, nth_error ["m1"; "m2"] i = Some m ->
               failure_detail
                 (stub_failing_at (Nat.eqb 1) (ExitedAbnormally "boom")
                                  i (export_argv m))
               = failure_detail
                   (stub_failing_for "m2" (LaunchFailed "boom")
                                     i (export_argv m)))
  /\ main_loop (stub_failing_at (Nat.eqb 1) (ExitedAbnormally "boom"))
               ["m1"; "m2"] 0
     = main_loop (stub_failing_for "m2" (LaunchFailed "boom")) ["m1"; "m2"] 0.
Proof.
  assert (H : forall i m, nth_error ["m1"; "m2"] i = Some m ->
               failure_detail
                 (stub_failing_at (Nat.eqb 1) (ExitedAbnormally "boom")
                                  i (export_argv m))
               = failure_detail
                   (stub_failing_for "m2" (LaunchFailed "boom")
                                     i (export_argv m))).
  { intros i m Hi. destruct i as [| [| i]]; simpl in Hi.
    - injection Hi as <-. reflexivity.
    - injection Hi as <-. reflexivity.
    - destruct i; discriminate Hi. }
  split; [exact H |].
  exact (proj1 (runs_are_determined_by_outcomes _ _ _ H)).
Defined.


(** * Further properties of the loop *)

(** ** Helper facts *)

Lemma progress_line_inj (m m' : string) :
  progress_line m = progress_line m' -> m = m'.
Proof. unfold progress_line. simpl. intros H. now injection H. Qed.

Lemma export_argv_inj (m m' : string) :
  export_argv m = export_argv m' -> m = m'.
Proof. unfold export_argv. intros H. now injection H. Qed.

Lemma length_events (t : list event) :
  length t = length (invocations t) + length (console t).
Proof.
  induction t as [| [s | a] t IH]; simpl; [reflexivity | |]; rewrite IH; lia.
Qed.

Lemma failed_count_le (env : exporter) (ms : list string) :
  forall n, failed_count env n ms <= length ms.
Proof.
  induction ms as [| m ms IH]; intros n; simpl; [lia |].
  specialize (IH (S n)). destruct (failed (env n (export_argv m))); lia.
Qed.

(** The exporter as it is after [k] launches. *)
Lemma spec_trace_shift (env : exporter) (k : nat) (ms : list string) :
  forall n, spec_trace env (k + n) ms
            = spec_trace (fun j => env (k + j)) n ms.
Proof.
  induction ms as [| m ms IH]; intros n; cbn [spec_trace]; [reflexivity |].
  f_equal. rewrite <- IH. now rewrite Nat.add_succ_r.
Qed.

(** What the console of a run can hold. *)
Lemma console_spec_trace_in (env : exporter) (ms : list string) (s : string) :
  forall n, In s (console (spec_trace env n ms)) ->
            exists m, In m ms
                      /\ (s = progress_line m \/ exists d, s = failure_line m d).
Proof.
  induction ms as [| m ms IH]; intros n H; cbn [spec_trace] in H.
  - contradiction.
  - rewrite console_app in H. apply in_app_or in H. destruct H as [H | H].
    + exists m. split; [now left |].
      unfold spec_entry in H.
      destruct (failure_detail (env n (export_argv m))) as [d |];
        simpl in H.
      * destruct H as [H | [H | []]]; [now left | right; now exists d].
      * destruct H as [H | []]. now left.
    + destruct (IH _ H) as (m' & Hin & Hs). exists m'. split; [now right | assumption].
Qed.

Lemma failure_lines_spec_trace_nil (env : exporter) (ms : list string) :
  forall n,
    failure_lines (spec_trace env n ms) = [] <->
    (forall i m, nth_error ms i = Some m ->
                 env (n + i) (export_argv m) = Succeeded).
Proof.
  induction ms as [| m ms IH]; intros n; cbn [spec_trace].
  - split; [| reflexivity]. intros _ i m H. destruct i; discriminate H.
  - rewrite failure_lines_app, failure_lines_spec_entry. split.
    + intros H. apply app_eq_nil in H. destruct H as [H1 H2].
      intros i m' Hi. destruct i as [| i]; simpl in Hi.
      * injection Hi as <-. rewrite Nat.add_0_r.
        destruct (env n (export_argv m)); simpl in H1;
          [reflexivity | discriminate | discriminate].
      * rewrite Nat.add_succ_r.
        exact (proj1 (IH (S n)) H2 i m' Hi).
    + intros H. pose proof (H 0 m eq_refl) as H0.
      rewrite Nat.add_0_r in H0. rewrite H0. simpl.
      apply (IH (S n)). intros i m' Hi.
      specialize (H (S i) m' Hi). now rewrite Nat.add_succ_r in H.
Qed.

(** One pass with the launch left open, when the launch returns or raises an
    instance of [Exception]. *)
Lemma export_model_with_returns (call : list string -> M nat) (m : string)
      (n : nat) :
  (forall e, value (call (export_argv m) n) = Raise e ->
             is_Exception (cls e) = true) ->
  value (export_model_with call m n) = Ret tt.
Proof.
  intros H. unfold export_model_with, try_except_Exception, bind, print, ret.
  simpl. destruct (value (call (export_argv m) n)) as [a | e] eqn:Hv; simpl.
  - reflexivity.
  - rewrite (H e eq_refl). reflexivity.
Qed.

Lemma export_model_interruptible_some
      (env : nat -> list string -> option outcome) (m : string) (n : nat)
      (o : outcome) :
  env n (export_argv m) = Some o ->
  export_model_with (check_call_interruptible env) m n
  = Run (spec_entry (settled env) n m) (S n) (Ret tt).
Proof.
  intros H.
  unfold export_model_with, try_except_Exception, bind, print, ret,
    check_call_interruptible, check_call, spec_entry, settled.
  simpl. rewrite H. destruct o; reflexivity.
Qed.

Lemma export_model_interruptible_none
      (env : nat -> list string -> option outcome) (m : string) (n : nat) :
  env n (export_argv m) = None ->
  export_model_with (check_call_interruptible env) m n
  = Run [Stdout (progress_line m); Invoke (export_argv m)] (S n)
        (Raise (Exc KeyboardInterrupt "")).
Proof.
  intros H.
  unfold export_model_with, try_except_Exception, bind, print, ret,
    check_call_interruptible.
  simpl. rewrite H. reflexivity.
Qed.

Lemma main_loop_interrupted
      (env : nat -> list string -> option outcome) (l1 : list string)
      (m : string) (l2 : list string) :
  forall n,
    (forall i m', nth_error l1 i = Some m' ->
                  env (n + i) (export_argv m') <> None) ->
    env (n + length l1) (export_argv m) = None ->
    main_loop_with (check_call_interruptible env) (l1 ++ m :: l2) n
    = Run (spec_trace (settled env) n l1
             ++ [Stdout (progress_line m); Invoke (export_argv m)])
          (S (n + length l1)) (Raise (Exc KeyboardInterrupt "")).
Proof.
  unfold main_loop_with.
  induction l1 as [| m1 l1 IH]; intros n Hpre Hint; cbn [app for_in length].
  - rewrite Nat.add_0_r in *. unfold bind.
    rewrite (export_model_interruptible_none env m n Hint). reflexivity.
  - pose proof (Hpre 0 m1 eq_refl) as H0. rewrite Nat.add_0_r in H0.
    destruct (env n (export_argv m1)) as [o |] eqn:Ho; [| contradiction].
    unfold bind. rewrite (export_model_interruptible_some env m1 n o Ho).
    cbn [value spawned emitted].
    rewrite (IH (S n)).
    + cbn [value spawned emitted spec_trace].
      rewrite <- app_assoc, Nat.add_succ_r. reflexivity.
    + intros i m' Hi. specialize (Hpre (S i) m' Hi).
      now rewrite Nat.add_succ_r in Hpre.
    + cbn [length] in Hint. now rewrite Nat.add_succ_r in Hint.
Qed.

(** With [subprocess.check_call] for the launch, the open loop is the loop
    of the script. *)
Lemma main_loop_with_check_call (env : exporter) (ms : list string) (n : nat) :
  main_loop_with (check_call env) ms n = main_loop env ms n.
Proof. reflexivity. Qed.

(** One pass with the launch left open prints its progress line first. *)
Lemma export_model_with_emits_progress (call : list string -> M nat)
      (m : string) (n : nat) :
  exists t, emitted (export_model_with call m n)
            = Stdout (progress_line m) :: t.
Proof.
  unfold export_model_with, try_except_Exception, bind, print, ret. simpl.
  destruct (value (call (export_argv m) n)) as [a | e]; simpl.
  - eexists; reflexivity.
  - destruct (is_Exception (cls e)); simpl; eexists; reflexivity.
Qed.

Lemma main_loop_with_emits_progress (call : list string -> M nat)
      (ms : list string) (m : string) :
  (forall argv k e, value (call argv k) = Raise e ->
                    is_Exception (cls e) = true) ->
  In m ms ->
  forall n, In (Stdout (progress_line m)) (emitted (main_loop_with call ms n)).
Proof.
  intros Hcall. unfold main_loop_with.
  induction ms as [| m1 ms IH]; intros Hin n; [contradiction |].
  cbn [for_in]. unfold bind.
  rewrite (export_model_with_returns call m1 n (Hcall _ _)).
  cbn [emitted]. apply in_or_app.
  destruct Hin as [-> | Hin]; [left | right; now apply IH].
  destruct (export_model_with_emits_progress call m n) as [t ->]. now left.
Qed.

(** ** Properties beyond the claims *)

(** X1: the loop over a concatenated list is the loop over the first part
    followed by the loop over the second; the output is that of a run over
    the first part followed by that of a separate run over the second part,
    facing the exporter as it is after the launches of the first. *)
Theorem loop_over_concatenation (env : exporter) (l1 l2 : list string) :
  main_loop env (l1 ++ l2) 0
  = (main_loop env l1 ;; main_loop env l2) 0
  /\ emitted (main_loop env (l1 ++ l2) 0)
     = emitted (main_loop env l1 0)
       ++ emitted (main_loop (fun j => env (length l1 + j)) l2 0).
Proof.
  unfold bind. rewrite !main_loop_run. cbn [emitted spawned value].
  rewrite ?main_loop_run. cbn [emitted spawned value].
  rewrite spec_trace_app, length_app, Nat.add_assoc. cbn [Nat.add].
  split; [reflexivity |].
  f_equal. rewrite <- (Nat.add_0_r (length l1)) at 1.
  apply spec_trace_shift.
Qed.

(** X2: the console of a run holds no failure line if and only if every
    invocation of the run succeeded. *)
Theorem no_failure_line_iff_all_succeeded (env : exporter) (ms : list string) :
  failure_lines (emitted (main_loop env ms 0)) = [] <->
  (forall i m, nth_error ms i = Some m ->
               env i (export_argv m) = Succeeded).
Proof.
  rewrite main_loop_run. cbn [emitted].
  exact (failure_lines_spec_trace_nil env ms 0).
Qed.

(** X3: a run over N entries prints at least N and at most 2N lines and
    produces at least 2N and at most 3N events (lines and launches). *)
Theorem output_size_bounds (env : exporter) (ms : list string) :
  length ms <= length (console (emitted (main_loop env ms 0))) <= 2 * length ms
  /\ 2 * length ms <= length (emitted (main_loop env ms 0)) <= 3 * length ms.
Proof.
  rewrite length_events. rewrite main_loop_run. cbn [emitted].
  rewrite invocations_spec_trace, length_map, console_spec_trace_length.
  pose proof (failed_count_le env ms 0). lia.
Qed.

(** X4: an identifier that is not in the list leaves no trace of its own:
    no launch carries it and no progress line names it. *)
Theorem excluded_identifier_is_not_processed
        (env : exporter) (ms : list string) (m : string) :
  ~ In m ms ->
  ~ In (export_argv m) (invocations (emitted (main_loop env ms 0)))
  /\ ~ In (progress_line m) (console (emitted (main_loop env ms 0))).
Proof.
  intros Hm. rewrite main_loop_run. cbn [emitted]. split; intros H.
  - rewrite invocations_spec_trace in H. apply in_map_iff in H.
    destruct H as (m' & He & Hin). apply export_argv_inj in He.
    subst m'. contradiction.
  - apply console_spec_trace_in in H.
    destruct H as (m' & Hin & [He | [d He]]).
    + apply progress_line_inj in He. subst m'. contradiction.
    + apply (f_equal is_progress_line) in He.
      rewrite progress_line_is_progress, failure_line_not_progress in He.
      discriminate He.
Qed.

(** X5: a [KeyboardInterrupt] raised during a launch is not caught by the
    [except Exception] clause: when it strikes at the entry after [l1], the
    run has produced the output of the entries of [l1], then the progress
    line and the launch of the struck entry and no failure line for it; the
    entries after it are never launched and the exception leaves the script,
    so that the interpreter does not exit normally but ends killed by
    SIGINT (signal 2), which a shell reports as status 130. *)
Theorem keyboard_interrupt_ends_the_run
        (env : nat -> list string -> option outcome)
        (l1 : list string) (m : string) (l2 : list string) :
  (forall i m', nth_error l1 i = Some m' ->
                env i (export_argv m') <> None) ->
  env (length l1) (export_argv m) = None ->
  main_loop_with (check_call_interruptible env) (l1 ++ m :: l2) 0
  = Run (emitted (main_loop (settled env) l1 0)
           ++ [Stdout (progress_line m); Invoke (export_argv m)])
        (S (length l1)) (Raise (Exc KeyboardInterrupt ""))
  /\ invocations
       (emitted (main_loop_with (check_call_interruptible env)
                               (l1 ++ m :: l2) 0))
     = map export_argv (l1 ++ [m])
  /\ failure_lines
       (emitted (export_model_with (check_call_interruptible env) m
                                   (length l1))) = []
  /\ process_end (main_loop_with (check_call_interruptible env)
                                 (l1 ++ m :: l2) 0) = Signaled 2
  /\ exit_status (main_loop_with (check_call_interruptible env)
                                 (l1 ++ m :: l2) 0) = 130.
Proof.
  intros Hpre Hint.
  rewrite (main_loop_interrupted env l1 m l2 0 Hpre Hint).
  rewrite main_loop_run. cbn [emitted Nat.add].
  split; [reflexivity |]. split.
  - rewrite invocations_app, invocations_spec_trace, map_app. reflexivity.
  - rewrite (export_model_interruptible_none env m (length l1) Hint).
    repeat split.
Qed.

(** X6: whatever the launch does, as long as every exception it raises is an
    instance of [Exception], no exception leaves the loop: the loop returns
    after the last entry, the script ends with status 0, and the progress
    line of every entry of the list has been printed. *)
Theorem exceptions_never_leave_the_loop
        (call : list string -> M nat) (ms : list string) (n : nat) :
  (forall argv k e, value (call argv k) = Raise e ->
                    is_Exception (cls e) = true) ->
  value (main_loop_with call ms n) = Ret tt
  /\ exit_status (main_loop_with call ms n) = 0
  /\ forall m, In m ms ->
               In (Stdout (progress_line m))
                  (emitted (main_loop_with call ms n)).
Proof.
  intros Hcall.
  assert (Hv : forall k, value (main_loop_with call ms k) = Ret tt).
  { unfold main_loop_with. induction ms as [| m ms IH]; intros k.
    - reflexivity.
    - cbn [for_in]. unfold bind.
      rewrite (export_model_with_returns call m k (Hcall _ _)).
      cbn [value]. apply IH. }
  split; [apply Hv |]. split.
  - unfold exit_status, process_end. now rewrite Hv.
  - intros m Hin. now apply main_loop_with_emits_progress.
Qed.

(** X7: nothing removes duplicates: an identifier is launched, and announced
    by a progress line, exactly as many times as it occurs in the list. *)
Theorem duplicates_repeat_work (env : exporter) (ms : list string) (m : string) :
  count_occ (list_eq_dec string_dec)
            (invocations (emitted (main_loop env ms 0))) (export_argv m)
  = count_occ string_dec ms m
  /\ count_occ string_dec
               (progress_lines (emitted (main_loop env ms 0)))
               (progress_line m)
     = count_occ string_dec ms m.
Proof.
  rewrite main_loop_run. cbn [emitted].
  rewrite invocations_spec_trace, progress_lines_spec_trace. split; symmetry.
  - apply count_occ_map, export_argv_inj.
  - apply count_occ_map, progress_line_inj.
Qed.

(** ** The further properties at concrete inputs *)

Lemma excluded_identifier_is_not_processed_witness :
  ~ In "ViT-B-32__openai" models
  /\ ~ In (export_argv "ViT-B-32__openai")
          (invocations (emitted (main (fun _ _ => LaunchFailed "[Errno 2]")))).
Proof.
  assert (H : ~ In "ViT-B-32__openai" models).
  { simpl. intros [H | [H | [H | [H | [H | []]]]]]; discriminate H. }
  split; [exact H |].
  exact (proj1 (excluded_identifier_is_not_processed
                  (fun _ _ => LaunchFailed "[Errno 2]") models
                  "ViT-B-32__openai" H)).
Defined.

Lemma keyboard_interrupt_ends_the_run_witness :
  (forall i m', nth_error ["m1"] i = Some m' ->
                (fun (n : nat) (_ : list string) =>
                   if Nat.eqb n 1 then None else Some (ExitedAbnormally "boom"))
                  i (export_argv m') <> None)
  /\ (fun (n : nat) (_ : list string) =>
        if Nat.eqb n 1 then None else Some (ExitedAbnormally "boom"))
       (length ["m1"]) (export_argv "m2") = None
  /\ main_loop_with
       (check_call_interruptible
          (fun n _ => if Nat.eqb n 1 then None
                      else Some (ExitedAbnormally "boom")))
       (["m1"] ++ "m2" :: ["m3"]) 0
     = Run [Stdout "Exporting model m1"; Invoke (export_argv "m1");
            Stdout "Failed to export model m1: boom";
            Stdout "Exporting model m2"; Invoke (export_argv "m2")]
           2 (Raise (Exc KeyboardInterrupt "")).
Proof.
  assert (H : forall i m', nth_error ["m1"] i = Some m' ->
                (fun (n : nat) (_ : list string) =>
                   if Nat.eqb n 1 then None else Some (ExitedAbnormally "boom"))
                  i (export_argv m') <> None).
  { intros i m' Hi. destruct i as [| i]; simpl in Hi.
    - simpl. discriminate.
    - destruct i; discriminate Hi. }
  split; [exact H |]. split; [reflexivity |].
  exact (proj1 (keyboard_interrupt_ends_the_run
                  (fun n _ => if Nat.eqb n 1 then None
                              else Some (ExitedAbnormally "boom"))
                  ["m1"] "m2" ["m3"] H eq_refl)).
Defined.

Lemma exceptions_never_leave_the_loop_witness :
  (forall argv k e,
      value (launch_without_python argv k) = Raise e ->
      is_Exception (cls e) = true)
  /\ value (main_loop_with launch_without_python ["m1"; "m2"] 0) = Ret tt.
Proof.
  assert (H : forall argv k e,
             value (launch_without_python argv k) = Raise e ->
             is_Exception (cls e) = true).
  { intros argv k e He. simpl in He. injection He as <-. reflexivity. }
  split; [exact H |].
  exact (proj1 (exceptions_never_leave_the_loop
                  launch_without_python ["m1"; "m2"] 0 H)).
Defined.
